(** * nanodesign.data.domain: the [Domain] class

    A shallow embedding of [src/nanodesign/data/domain.py] and the
    properties of its accessors, of the nested [rev_complement] helper and
    of [Domain.melting_temperature].

    Python values are modelled as follows.
    - [int] is [Z]; [float] is the primitive binary64 [float]; [str] is
      [string], indexed through its list of characters.
    - A raised exception is the [Raise] case of [result]; the two that the
      module can raise on its own are [KeyError] (a character missing from
      the [comp] dict) and [IndexError] (subscript of an empty list).
      [DanglingReference] is not a Python exception: it reports a location
      that the store does not allocate, which no Python state contains.
    - [Domain] and [DnaStrand] objects live in a store [Heap] and are
      referred to by location, because the [color] setter mutates a
      [Domain] that other objects reference.
    - The energy model ([energymodel.py]) is not part of this file; its
      three entry points are the fields of the class [energymodel.t], and
      every call to them is recorded in a trace. *)

From Stdlib Require Import ZArith String Ascii PrimFloat.
From stdpp Require Import gmap strings list.

(** ** Python runtime: exceptions, subscripts, [range], [in] *)

Inductive exn : Type :=
| KeyError (key : ascii)
| IndexError
| DanglingReference.

Inductive result (A : Type) : Type :=
| Ok (a : A)
| Raise (e : exn).

Arguments Ok {A} a.
Arguments Raise {A} e.

#[global] Instance result_ret : MRet result := λ A a, Ok a.

#[global] Instance result_bind : MBind result :=
  λ A B k m, match m with Ok a => k a | Raise e => Raise e end.

#[global] Instance result_fmap : FMap result :=
  λ A B f m, match m with Ok a => Ok (f a) | Raise e => Raise e end.

(** [l[i]] for a Python sequence: a negative subscript counts from the end,
    anything outside [-len l, len l) raises [IndexError]. *)
Definition py_index {A} (l : list A) (i : Z) : result A :=
  let n := Z.of_nat (length l) in
  let j := if (i <? 0)%Z then (i + n)%Z else i in
  if ((0 <=? j)%Z && (j <? n)%Z)%bool then
    match l !! Z.to_nat j with
    | Some x => Ok x
    | None => Raise IndexError
    end
  else Raise IndexError.

(** [len(s)] and [s[i]] on a [str]. *)
Definition py_len (s : string) : Z := Z.of_nat (String.length s).

Definition str_getitem (s : string) (i : Z) : result ascii :=
  py_index (list_ascii_of_string s) i.

(** [range(n)]. *)
Definition range (n : Z) : list Z := Z.of_nat <$> seq 0 (Z.to_nat n).

(** [for x in xs: st = body(st, x)], stopping at the first exception. *)
Fixpoint for_each {A S} (body : S → A → result S) (xs : list A) (st : S)
  : result S :=
  match xs with
  | [] => Ok st
  | x :: xs' => st' ← body st x; for_each body xs' st'
  end.

(** [sub in s] on strings is a substring test. *)
Fixpoint str_contains (sub s : string) : bool :=
  String.prefix sub s ||
  match s with
  | EmptyString => false
  | String _ s' => str_contains sub s'
  end.

(** ** [rev_complement] (domain.py, lines 89-98) *)

(** The [comp] dict. *)
Definition comp : gmap ascii ascii :=
  list_to_map
    [("G", "C"); ("C", "G");
     ("A", "T"); ("T", "A");
     ("g", "c"); ("c", "g");
     ("a", "t"); ("t", "a");
     ("N", "N"); ("n", "n")]%char.

(** [comp[c]]: a missing key raises [KeyError]. *)
Definition comp_getitem (c : ascii) : result ascii :=
  match comp !! c with
  | Some c' => Ok c'
  | None => Raise (KeyError c)
  end.

(** One iteration appends the complement of the character at distance [i]
    from the end. *)
Definition rev_complement_body (seq : string) (rev : list ascii) (i : Z)
  : result (list ascii) :=
  c ← str_getitem seq (py_len seq - i - 1)%Z;
  c' ← comp_getitem c;
  mret (rev ++ [c']).

(** [rev = []], the loop over [range(len(seq))], then the join of [rev]. *)
Definition rev_complement (seq : string) : result string :=
  rev ← for_each (rev_complement_body seq) (range (py_len seq)) [];
  mret (string_of_list_ascii rev).

(** ** The pairing table as the specification words it *)

(** Watson-Crick complement, case by case: A↔T, G↔C, a↔t, g↔c, N↔N, n↔n.
    Characters outside the alphabet are left alone; no statement below
    relies on that choice. *)
Definition complement (c : ascii) : ascii :=
  match c with
  | "A" => "T" | "T" => "A" | "G" => "C" | "C" => "G"
  | "a" => "t" | "t" => "a" | "g" => "c" | "c" => "g"
  | "N" => "N" | "n" => "n"
  | _ => c
  end%char.

(** Membership in [{A,T,G,C,N}], either case. *)
Definition nucleotide (c : ascii) : bool :=
  match c with
  | "A" | "T" | "G" | "C" | "N"
  | "a" | "t" | "g" | "c" | "n" => true
  | _ => false
  end%char.

(** Lower-case ASCII letter. *)
Definition is_lower (c : ascii) : bool :=
  (97 <=? nat_of_ascii c)%nat && (nat_of_ascii c <=? 122)%nat.

(** Membership in [{A,T,G,C}], either case. *)
Definition unambiguous (c : ascii) : bool :=
  nucleotide c && negb (Ascii.eqb c "N") && negb (Ascii.eqb c "n").

Definition over (P : ascii → bool) (s : string) : Prop :=
  Forall (λ c, P c = true) (list_ascii_of_string s).

(** Reverse, then complement each character. *)
Definition revcomp_chars (l : list ascii) : result (list ascii) :=
  mapM comp_getitem (reverse l).


(** ** The objects a domain refers to *)

(** A 3D coordinate and an RGB triple. *)
Definition Point : Type := float * float * float.

Definition Color : Type := list float.

(** Object locations in the store. *)
Definition loc : Type := positive.

Module DnaBase.

(** Modelled from the spec: the base class is declared outside domain.py.
    [seq] (its one-letter symbol) and [coordinates] are the two attributes
    domain.py reads; [p] is the base's position in its helix, by which the
    specification says the helix table is indexed. *)
Record t : Type := mk {
  seq : string;
  coordinates : Point;
  p : Z
}.

End DnaBase.

Module DnaStructureHelix.

(** Modelled from the spec: the helix class is declared outside domain.py.
    [helix_axis_coords] is the per-base axis coordinate table, keyed by base
    position. *)
Record t : Type := mk {
  helix_axis_coords : gmap Z Point
}.

End DnaStructureHelix.

Module DnaStrand.

(** Modelled from the spec: the strand class is declared outside domain.py;
    [color] is the one attribute domain.py reads. *)
Record t : Type := mk {
  color : Color
}.

End DnaStrand.

(** ** The [Domain] class *)

Module Domain.

(** The attributes assigned by [__init__]. [strand] may be [None]; [_color]
    is [None] until the setter stores a value. *)
Record t : Type := mk {
  id : Z;
  helix : DnaStructureHelix.t;
  strand : option loc;
  base_list : list DnaBase.t;
  _color : option Color;
  sequence : string;
  connected_strand : Z;
  connected_domain : Z
}.

End Domain.

(** The store: the domains and the strands, by location. *)
Record Heap : Type := mkHeap {
  domains : gmap loc Domain.t;
  strands : gmap loc DnaStrand.t
}.

(** [Domain.__init__]. *)
Definition init (id : Z) (helix : DnaStructureHelix.t) (strand : option loc)
    (bases : list DnaBase.t) : Domain.t :=
  {| Domain.id := id;
     Domain.helix := helix;
     Domain.strand := strand;
     Domain.base_list := bases;
     Domain._color := None;
     Domain.sequence := String.concat "" (DnaBase.seq <$> bases);
     Domain.connected_strand := (-1)%Z;
     Domain.connected_domain := (-1)%Z |}.

(** Attribute read through a reference. *)
Definition deref {A} (m : gmap loc A) (l : loc) : result A :=
  match m !! l with
  | Some o => Ok o
  | None => Raise DanglingReference
  end.

(** The [color] property, read on the object at [self]. *)
Definition color (h : Heap) (self : loc) : result Color :=
  d ← deref (domains h) self;
  match Domain._color d with
  | Some c => Ok c
  | None =>
      match Domain.strand d with
      | Some l => s ← deref (strands h) l; mret (DnaStrand.color s)
      | None => Ok [0.5; 0.5; 0.5]%float
      end
  end.

(** [self._color = newval] on one domain record. *)
Definition with_color (newval : option Color) (d : Domain.t) : Domain.t :=
  {| Domain.id := Domain.id d;
     Domain.helix := Domain.helix d;
     Domain.strand := Domain.strand d;
     Domain.base_list := Domain.base_list d;
     Domain._color := newval;
     Domain.sequence := Domain.sequence d;
     Domain.connected_strand := Domain.connected_strand d;
     Domain.connected_domain := Domain.connected_domain d |}.

(** The [color] property, written: the object at [self] is updated in
    place. [newval] is any Python value, [None] included. *)
Definition set_color (self : loc) (newval : option Color) (h : Heap) : Heap :=
  {| domains := alter (with_color newval) self (domains h);
     strands := strands h |}.

(** [Domain.get_end_points]. It reads attributes of [self] and of objects
    this module never writes, so it takes the attributes themselves (as does
    [melting_temperature] below). *)
Definition get_end_points (self : Domain.t) : result (Point * Point) :=
  let base_pos := DnaStructureHelix.helix_axis_coords (Domain.helix self) in
  base1 ← py_index (Domain.base_list self) 0;
  base2 ← py_index (Domain.base_list self) (-1);
  let point1 := DnaBase.coordinates base1 in
  let point2 := DnaBase.coordinates base2 in
  mret (point1, point2).

(** What the helix table holds for a base: its entry at the base's
    position. *)
Definition helix_coordinate (hx : DnaStructureHelix.t) (b : DnaBase.t)
  : option Point :=
  DnaStructureHelix.helix_axis_coords hx !! DnaBase.p b.

(** The end points as the specification describes them: the table entries
    of the first and of the last base. *)
Definition end_points_from_helix_table (self : Domain.t)
    (pts : Point * Point) : Prop :=
  ∃ base1 base2,
    head (Domain.base_list self) = Some base1 ∧
    last (Domain.base_list self) = Some base2 ∧
    helix_coordinate (Domain.helix self) base1 = Some pts.1 ∧
    helix_coordinate (Domain.helix self) base2 = Some pts.2.

(** ** The energy model and the calls made to it *)

Module energymodel.

(** Modelled from the spec: energymodel.py is not among the sources. The
    fields are [energy_model.stack_energy], which returns four terms,
    [energy_model.melting_temperature] and the module-level
    [convert_temperature_K_to_C], with the signatures of the
    specification's external interfaces. *)
Class t : Type := mk {
  stack_energy : string → string → float * float * float * float;
  melting_temperature : float → float → float;
  convert_temperature_K_to_C : float → float
}.

End energymodel.

Inductive call : Type :=
| StackEnergy (seq comp_seq : string)
| MeltingTemperature (dH dS : float)
| ConvertKToC (temp_K : float).

(** A computation that may call the energy model: the calls made, in order,
    and the outcome. *)
Record traced (A : Type) : Type := Traced {
  calls : list call;
  outcome : result A
}.

Arguments Traced {A} calls outcome.
Arguments calls {A} _.
Arguments outcome {A} _.

#[global] Instance traced_ret : MRet traced := λ A a, Traced [] (Ok a).

#[global] Instance traced_bind : MBind traced :=
  λ A B k m,
    match outcome m with
    | Ok a => Traced (calls m ++ calls (k a)) (outcome (k a))
    | Raise e => Traced (calls m) (Raise e)
    end.

(** A step that makes no call. *)
Definition quiet {A} (r : result A) : traced A := Traced [] r.

(** A call [c] that returns [v]. *)
Definition invoke {A} (c : call) (v : A) : traced A := Traced [c] (Ok v).

Section melting_temperature.

Context `{M : energymodel.t}.

Definition call_stack_energy (seq comp_seq : string)
  : traced (float * float * float * float) :=
  invoke (StackEnergy seq comp_seq) (energymodel.stack_energy seq comp_seq).

Definition call_melting_temperature (dH dS : float) : traced float :=
  invoke (MeltingTemperature dH dS) (energymodel.melting_temperature dH dS).

Definition call_convert_temperature_K_to_C (temp_K : float) : traced float :=
  invoke (ConvertKToC temp_K) (energymodel.convert_temperature_K_to_C temp_K).

(** [Domain.melting_temperature]. The two early [return]s are the first two
    branches; the argument [rev_complement(self.sequence)] is evaluated
    before [stack_energy] is called. *)
Definition melting_temperature (self : Domain.t) : traced float :=
  if decide (Domain.connected_domain self = (-1)%Z) then
    mret (-500.0)%float
  else if str_contains "N" (Domain.sequence self)
          || str_contains "n" (Domain.sequence self) then
    mret (-501.0)%float
  else
    rc ← quiet (rev_complement (Domain.sequence self));
    '(_, _, dH, dS) ← call_stack_energy (Domain.sequence self) rc;
    melting_temp_K ← call_melting_temperature dH dS;
    call_convert_temperature_K_to_C melting_temp_K.

End melting_temperature.

(** ** Sample objects *)

(** A stand-in energy model, to run [melting_temperature] on examples:
    fixed stacking terms, [dH / dS], and the offset 273.15 (written as the
    binary64 value nearest to it). *)
Definition sample_model : energymodel.t :=
  {| energymodel.stack_energy := λ _ _, (0.5, 1, -30000, -85)%float;
     energymodel.melting_temperature := λ dH dS, (dH / dS)%float;
     energymodel.convert_temperature_K_to_C := λ t, (t - 0x1.1126666666666p+8)%float |}.

Definition base_at (sym : string) (pos : Z) (x : float) : DnaBase.t :=
  {| DnaBase.seq := sym; DnaBase.coordinates := (x, 0, 0)%float;
     DnaBase.p := pos |}.

(** Four bases spelling ATGC, at x = 1, 2, 3, 4. *)
Definition bases_ATGC : list DnaBase.t :=
  [base_at "A" 0 1; base_at "T" 1 2; base_at "G" 2 3; base_at "C" 3 4]%float.

Definition bases_ATNC : list DnaBase.t :=
  [base_at "A" 0 1; base_at "T" 1 2; base_at "N" 2 3; base_at "C" 3 4]%float.

(** A helix whose axis table places the same four positions on the z axis. *)
Definition helix_z : DnaStructureHelix.t :=
  {| DnaStructureHelix.helix_axis_coords :=
       list_to_map [(0%Z, (0, 0, 10)%float); (1%Z, (0, 0, 11)%float);
                    (2%Z, (0, 0, 12)%float); (3%Z, (0, 0, 13)%float)] |}.

Definition helix_empty : DnaStructureHelix.t :=
  {| DnaStructureHelix.helix_axis_coords := ∅ |}.

(** [d.connected_domain = k]. *)
Definition paired_with (k : Z) (d : Domain.t) : Domain.t :=
  {| Domain.id := Domain.id d;
     Domain.helix := Domain.helix d;
     Domain.strand := Domain.strand d;
     Domain.base_list := Domain.base_list d;
     Domain._color := Domain._color d;
     Domain.sequence := Domain.sequence d;
     Domain.connected_strand := Domain.connected_strand d;
     Domain.connected_domain := k |}.

Definition domain_ATGC : Domain.t := init 0 helix_z (Some 1%positive) bases_ATGC.

Definition domain_ATNC : Domain.t := init 1 helix_z None bases_ATNC.

Definition red : Color := [1; 0; 0]%float.

Definition blue : Color := [0; 0; 1]%float.

(** One strand, coloured blue, and the two domains above. *)
Definition sample_heap : Heap :=
  {| domains := {[ 1%positive := domain_ATGC; 2%positive := domain_ATNC ]};
     strands := {[ 1%positive := {| DnaStrand.color := blue |} ]} |}.

(** ** Facts about the runtime *)

Lemma result_bind_Ok {A B} (k : A → result B) (a : A) : Ok a ≫= k = k a.
Proof. reflexivity. Qed.

Lemma result_bind_assoc {A B C} (m : result A) (f : A → result B)
    (g : B → result C) :
  (m ≫= f) ≫= g = m ≫= (λ a, f a ≫= g).
Proof. by destruct m. Qed.

Lemma py_index_nonneg {A} (l : list A) (i : nat) (x : A) :
  l !! i = Some x → py_index l (Z.of_nat i) = Ok x.
Proof.
  intros Hx. pose proof (lookup_lt_Some _ _ _ Hx) as Hlt.
  unfold py_index. cbn zeta.
  replace (Z.of_nat i <? 0)%Z with false by (symmetry; apply Z.ltb_ge; lia).
  replace (0 <=? Z.of_nat i)%Z with true by (symmetry; apply Z.leb_le; lia).
  replace (Z.of_nat i <? Z.of_nat (length l))%Z with true
    by (symmetry; apply Z.ltb_lt; lia).
  cbn. by rewrite Nat2Z.id, Hx.
Qed.

Lemma py_index_first {A} (l : list A) :
  py_index l 0 = from_option Ok (Raise IndexError) (head l).
Proof.
  destruct l as [|x l]; [reflexivity|].
  apply (py_index_nonneg (x :: l) 0 x). reflexivity.
Qed.

Lemma py_index_last {A} (l : list A) :
  py_index l (-1) = from_option Ok (Raise IndexError) (last l).
Proof.
  destruct (last l) as [x|] eqn:Hl.
  - rewrite last_lookup in Hl. pose proof (lookup_lt_Some _ _ _ Hl) as Hlt.
    unfold py_index. cbn zeta.
    replace (-1 <? 0)%Z with true by reflexivity.
    replace (0 <=? -1 + Z.of_nat (length l))%Z with true
      by (symmetry; apply Z.leb_le; lia).
    replace (-1 + Z.of_nat (length l) <? Z.of_nat (length l))%Z with true
      by (symmetry; apply Z.ltb_lt; lia).
    cbn. replace (Z.to_nat (-1 + Z.of_nat (length l))) with (pred (length l)) by lia.
    by rewrite Hl.
  - apply last_None in Hl. by subst l.
Qed.

Lemma range_S (n : nat) :
  range (Z.of_nat (S n)) = range (Z.of_nat n) ++ [Z.of_nat n].
Proof.
  unfold range. rewrite !Nat2Z.id, seq_S, fmap_app. reflexivity.
Qed.

Lemma for_each_app {A S} (body : S → A → result S) (xs ys : list A) (st : S) :
  for_each body (xs ++ ys) st = for_each body xs st ≫= for_each body ys.
Proof.
  revert st. induction xs as [|x xs IH]; intros st; [reflexivity|].
  cbn. destruct (body st x) as [st'|e]; [apply IH | reflexivity].
Qed.

Lemma mapM_result_app {A B} (f : A → result B) (xs ys : list A) :
  mapM f (xs ++ ys) = r ← mapM f xs; r' ← mapM f ys; mret (r ++ r').
Proof.
  induction xs as [|x xs IH]; cbn.
  - by destruct (mapM f ys).
  - destruct (f x) as [b|e]; cbn; [|reflexivity].
    rewrite IH. destruct (mapM f xs) as [r|e]; cbn; [|reflexivity].
    by destruct (mapM f ys).
Qed.

(** ** The loop of [rev_complement] *)

Lemma py_len_chars (s : string) :
  py_len s = Z.of_nat (length (list_ascii_of_string s)).
Proof.
  unfold py_len. f_equal.
  induction s as [|c s IH]; cbn; [reflexivity | by rewrite IH].
Qed.

Lemma str_getitem_from_end (s : string) (i : nat) (c : ascii) :
  reverse (list_ascii_of_string s) !! i = Some c →
  str_getitem s (py_len s - Z.of_nat i - 1) = Ok c.
Proof.
  intros Hc. pose proof (lookup_lt_Some _ _ _ Hc) as Hlt.
  rewrite length_reverse in Hlt.
  rewrite reverse_lookup in Hc by done.
  rewrite py_len_chars. unfold str_getitem.
  replace (Z.of_nat (length (list_ascii_of_string s)) - Z.of_nat i - 1)%Z
    with (Z.of_nat (length (list_ascii_of_string s) - S i)) by lia.
  by apply py_index_nonneg.
Qed.

(** After [n] iterations the accumulator has grown by the complements of
    the last [n] characters, last character first; the first character
    without an entry in [comp] stops the loop with its [KeyError]. *)
Lemma rev_complement_loop (s : string) (n : nat) (acc : list ascii) :
  n ≤ length (list_ascii_of_string s) →
  for_each (rev_complement_body s) (range (Z.of_nat n)) acc
  = r ← mapM comp_getitem (take n (reverse (list_ascii_of_string s)));
    mret (acc ++ r).
Proof.
  induction n as [|n IH]; intros Hn.
  - change (Ok acc = Ok (acc ++ [])). by rewrite app_nil_r.
  - rewrite range_S, for_each_app, IH by lia.
    destruct (lookup_lt_is_Some_2 (reverse (list_ascii_of_string s)) n)
      as [c Hc]; [rewrite length_reverse; lia|].
    rewrite (take_S_r _ _ _ Hc), mapM_result_app.
    destruct (mapM comp_getitem (take n (reverse (list_ascii_of_string s))))
      as [r|e]; [|reflexivity].
    cbn. unfold rev_complement_body.
    rewrite (str_getitem_from_end _ _ _ Hc). cbn.
    destruct (comp_getitem c) as [c'|e]; cbn; [|reflexivity].
    by rewrite app_assoc.
Qed.

(** [rev_complement] is the character-wise lookup in [comp] over the
    reversed string. *)
Lemma rev_complement_unfold (s : string) :
  rev_complement s
  = string_of_list_ascii <$> revcomp_chars (list_ascii_of_string s).
Proof.
  unfold rev_complement, revcomp_chars.
  rewrite py_len_chars, rev_complement_loop by done.
  rewrite <- (length_reverse (list_ascii_of_string s)), firstn_all.
  by destruct (mapM comp_getitem (reverse (list_ascii_of_string s))).
Qed.

(** ** The [comp] dict against the pairing table *)

Lemma comp_getitem_nucleotide (c : ascii) :
  nucleotide c = true → comp_getitem c = Ok (complement c).
Proof.
  destruct c as [[] [] [] [] [] [] [] []]; cbn; intros H;
    first [discriminate H | reflexivity].
Qed.

Lemma comp_getitem_defined (c c' : ascii) :
  comp_getitem c = Ok c' → nucleotide c = true.
Proof.
  destruct c as [[] [] [] [] [] [] [] []]; vm_compute; intros H;
    first [discriminate H | reflexivity].
Qed.

Lemma complement_involutive (c : ascii) : complement (complement c) = c.
Proof. by destruct c as [[] [] [] [] [] [] [] []]. Qed.

Lemma complement_nucleotide (c : ascii) :
  nucleotide (complement c) = nucleotide c.
Proof. by destruct c as [[] [] [] [] [] [] [] []]. Qed.

Lemma complement_case (c : ascii) : is_lower (complement c) = is_lower c.
Proof. by destruct c as [[] [] [] [] [] [] [] []]. Qed.

Lemma mapM_comp_getitem (l : list ascii) :
  Forall (λ c, nucleotide c = true) l →
  mapM comp_getitem l = Ok (complement <$> l).
Proof.
  induction 1 as [|c l Hc _ IH]; [reflexivity|].
  cbn. rewrite (comp_getitem_nucleotide c Hc). cbn. by rewrite IH.
Qed.

Lemma rev_complement_over (s : string) :
  over nucleotide s →
  rev_complement s
  = Ok (string_of_list_ascii (complement <$> reverse (list_ascii_of_string s))).
Proof.
  intros Hs. rewrite rev_complement_unfold. unfold revcomp_chars.
  rewrite mapM_comp_getitem; [reflexivity|].
  by apply Forall_reverse.
Qed.

(** ** [in] on a one-character string *)

Lemma str_contains_char (c : ascii) (s : string) :
  str_contains (String c EmptyString) s = true ↔ c ∈ list_ascii_of_string s.
Proof.
  induction s as [|a s IH]; cbn.
  - split; [discriminate | by intros ?%elem_of_nil].
  - rewrite elem_of_cons, <- IH. destruct (ascii_dec c a) as [->|Hne].
    + destruct s; cbn; tauto.
    + cbn. split; [tauto | by intros [?|?]].
Qed.

Lemma str_contains_char_false (c : ascii) (s : string) :
  c ∉ list_ascii_of_string s → str_contains (String c EmptyString) s = false.
Proof.
  intros Hc. apply not_true_is_false. by rewrite str_contains_char.
Qed.

(** ** Reverse complement: C5, C6 *)

Lemma chars_of_chars (l : list ascii) :
  list_ascii_of_string (string_of_list_ascii l) = l.
Proof. apply list_ascii_of_string_of_list_ascii. Qed.

Lemma over_revcomp (l : list ascii) :
  Forall (λ c, nucleotide c = true) l →
  over nucleotide (string_of_list_ascii (complement <$> reverse l)).
Proof.
  intros Hl. unfold over. rewrite chars_of_chars.
  apply Forall_fmap, Forall_reverse.
  eapply Forall_impl; [exact Hl|]. intros c Hc. cbn.
  by rewrite complement_nucleotide.
Qed.

(** C5. On a string over [{A,T,G,C,N}], either case, [rev_complement]
    succeeds, and applying it to its own output gives the input back. *)
Theorem rev_complement_involutive (s : string) :
  over nucleotide s →
  rev_complement s ≫= rev_complement = Ok s.
Proof.
  intros Hs. rewrite (rev_complement_over s Hs), result_bind_Ok.
  rewrite rev_complement_over by by apply over_revcomp.
  rewrite chars_of_chars, <- fmap_reverse, reverse_involutive.
  rewrite <- list_fmap_compose.
  rewrite (list_fmap_ext (complement ∘ complement) id)
    by (intros ? c _; apply complement_involutive).
  by rewrite list_fmap_id, string_of_list_ascii_of_string.
Qed.

Lemma rev_complement_involutive_witness :
  over nucleotide "ATGCNatgcn" ∧
  rev_complement "ATGCNatgcn" ≫= rev_complement = Ok "ATGCNatgcn"%string.
Proof.
  assert (H : over nucleotide "ATGCNatgcn")
    by (unfold over; cbn; repeat constructor).
  split; [exact H | exact (rev_complement_involutive "ATGCNatgcn" H)].
Defined.

(** C6. On a string [s] over [{A,T,G,C,N}], either case, [rev_complement]
    returns a string [r] of the same length, and for every index [i] the
    character [r[i]] is the Watson-Crick complement of [s[len(s)-1-i]], in
    the same case. *)
Theorem rev_complement_pointwise (s : string) :
  over nucleotide s →
  ∃ r, rev_complement s = Ok r ∧
       py_len r = py_len s ∧
       ∀ i : Z, (0 ≤ i < py_len s)%Z →
         ∃ c, str_getitem s (py_len s - 1 - i) = Ok c ∧
              str_getitem r i = Ok (complement c) ∧
              is_lower (complement c) = is_lower c.
Proof.
  intros Hs. eexists. split; [by apply rev_complement_over|].
  set (l := list_ascii_of_string s).
  split.
  - rewrite !py_len_chars, chars_of_chars. fold l.
    by rewrite length_fmap, length_reverse.
  - intros i Hi. rewrite py_len_chars in Hi. fold l in Hi.
    destruct (lookup_lt_is_Some_2 (reverse l) (Z.to_nat i)) as [c Hc];
      [rewrite length_reverse; lia|].
    exists c. split; [|split].
    + replace (py_len s - 1 - i)%Z
        with (py_len s - Z.of_nat (Z.to_nat i) - 1)%Z by lia.
      by apply str_getitem_from_end.
    + unfold str_getitem. rewrite chars_of_chars.
      replace i with (Z.of_nat (Z.to_nat i)) at 1 by lia.
      apply py_index_nonneg. by rewrite list_lookup_fmap, Hc.
    + apply complement_case.
Qed.

Lemma rev_complement_pointwise_witness :
  over nucleotide "aTGn" ∧
  ∃ r, rev_complement "aTGn" = Ok r ∧
       py_len r = py_len "aTGn" ∧
       ∀ i : Z, (0 ≤ i < py_len "aTGn")%Z →
         ∃ c, str_getitem "aTGn" (py_len "aTGn" - 1 - i) = Ok c ∧
              str_getitem r i = Ok (complement c) ∧
              is_lower (complement c) = is_lower c.
Proof.
  assert (H : over nucleotide "aTGn")
    by (unfold over; cbn; repeat constructor).
  split; [exact H | exact (rev_complement_pointwise "aTGn" H)].
Defined.

(** ** Melting temperature: C1, C2, C3 *)

Lemma over_unambiguous (s : string) : over unambiguous s → over nucleotide s.
Proof.
  unfold over. intros Hs. eapply Forall_impl; [exact Hs|].
  intros c Hc. unfold unambiguous in Hc. cbn beta in Hc.
  by apply andb_prop in Hc as [[Hc _]%andb_prop _].
Qed.

Section melting_temperature_facts.

Context `{M : energymodel.t}.

Lemma melting_temperature_paired_clean (self : Domain.t) :
  Domain.connected_domain self ≠ (-1)%Z →
  "N"%char ∉ list_ascii_of_string (Domain.sequence self) →
  "n"%char ∉ list_ascii_of_string (Domain.sequence self) →
  melting_temperature self
  = (rc ← quiet (rev_complement (Domain.sequence self));
     '(_, _, dH, dS) ← call_stack_energy (Domain.sequence self) rc;
     melting_temp_K ← call_melting_temperature dH dS;
     call_convert_temperature_K_to_C melting_temp_K).
Proof.
  intros Hpaired HN Hn. unfold melting_temperature.
  destruct (decide _) as [Heq|_]; [done|].
  change "N"%string with (String "N" EmptyString).
  change "n"%string with (String "n" EmptyString).
  by rewrite !str_contains_char_false.
Qed.

End melting_temperature_facts.

(** C1. A domain with [connected_domain == -1] gets exactly [-500.0],
    whatever its sequence holds; the energy model is not called, and the
    test for [N] is not reached. *)
Theorem melting_temperature_unpaired `{M : energymodel.t} (self : Domain.t) :
  Domain.connected_domain self = (-1)%Z →
  melting_temperature self = Traced [] (Ok (-500.0)%float).
Proof.
  intros Hunpaired. unfold melting_temperature.
  by destruct (decide _).
Qed.

Lemma melting_temperature_unpaired_witness :
  Domain.connected_domain domain_ATNC = (-1)%Z ∧
  "N"%char ∈ list_ascii_of_string (Domain.sequence domain_ATNC) ∧
  @melting_temperature sample_model domain_ATNC
  = Traced [] (Ok (-500.0)%float).
Proof.
  split; [reflexivity|]. split.
  - cbn. do 2 apply list_elem_of_further. apply list_elem_of_here.
  - apply (@melting_temperature_unpaired sample_model domain_ATNC).
    reflexivity.
Defined.

(** C2. A domain with [connected_domain != -1] whose sequence contains the
    character [N] or the character [n] gets exactly [-501.0], and the energy
    model is not called. *)
Theorem melting_temperature_ambiguous `{M : energymodel.t} (self : Domain.t) :
  Domain.connected_domain self ≠ (-1)%Z →
  "N"%char ∈ list_ascii_of_string (Domain.sequence self) ∨
  "n"%char ∈ list_ascii_of_string (Domain.sequence self) →
  melting_temperature self = Traced [] (Ok (-501.0)%float).
Proof.
  intros Hpaired Hamb. unfold melting_temperature.
  destruct (decide _) as [Heq|_]; [done|].
  change "N"%string with (String "N" EmptyString).
  change "n"%string with (String "n" EmptyString).
  destruct Hamb as [HN|Hn].
  - apply str_contains_char in HN. by rewrite HN.
  - apply str_contains_char in Hn. rewrite Hn. by rewrite orb_true_r.
Qed.

Lemma melting_temperature_ambiguous_witness :
  Domain.connected_domain (paired_with 5 domain_ATNC) ≠ (-1)%Z ∧
  @melting_temperature sample_model (paired_with 5 domain_ATNC)
  = Traced [] (Ok (-501.0)%float).
Proof.
  assert (Hp : Domain.connected_domain (paired_with 5 domain_ATNC) ≠ (-1)%Z)
    by (cbn; lia).
  split; [exact Hp|].
  apply (@melting_temperature_ambiguous sample_model _ Hp).
  left. cbn. do 2 apply list_elem_of_further. apply list_elem_of_here.
Defined.

(** C3. For a domain with [connected_domain != -1] and a sequence free of
    [N] and [n]: when [rev_complement(sequence)] is [rc] and
    [stack_energy(sequence, rc)] is [(t1, t2, dH, dS)], the method calls
    [stack_energy(sequence, rc)], [melting_temperature(dH, dS)] and the
    Kelvin-to-Celsius conversion, in that order, and returns exactly
    [convert_temperature_K_to_C(melting_temperature(dH, dS))]; [t1] and [t2]
    go nowhere. When [rev_complement] raises, the method raises the same
    exception before any call; it does not raise on a sequence over
    [{A,T,G,C}], either case. For the sequence ATGC the reverse complement
    is GCAT. *)
Theorem melting_temperature_computed `{M : energymodel.t} (self : Domain.t) :
  Domain.connected_domain self ≠ (-1)%Z →
  "N"%char ∉ list_ascii_of_string (Domain.sequence self) →
  "n"%char ∉ list_ascii_of_string (Domain.sequence self) →
  (∀ rc t1 t2 dH dS,
     rev_complement (Domain.sequence self) = Ok rc →
     energymodel.stack_energy (Domain.sequence self) rc = (t1, t2, dH, dS) →
     melting_temperature self
     = Traced
         [StackEnergy (Domain.sequence self) rc;
          MeltingTemperature dH dS;
          ConvertKToC (energymodel.melting_temperature dH dS)]
         (Ok (energymodel.convert_temperature_K_to_C
                (energymodel.melting_temperature dH dS)))) ∧
  (∀ e,
     rev_complement (Domain.sequence self) = Raise e →
     melting_temperature self = Traced [] (Raise e)) ∧
  (over unambiguous (Domain.sequence self) →
   ∃ rc, rev_complement (Domain.sequence self) = Ok rc) ∧
  rev_complement "ATGC" = Ok "GCAT"%string.
Proof.
  intros Hpaired HN Hn.
  rewrite (melting_temperature_paired_clean self Hpaired HN Hn).
  split; [|split; [|split]].
  - intros rc t1 t2 dH dS Hrc Hse. rewrite Hrc.
    unfold mbind, traced_bind, quiet, call_stack_energy, invoke. cbn.
    by rewrite Hse.
  - intros e He. by rewrite He.
  - intros Hclean. eexists.
    by apply rev_complement_over, over_unambiguous.
  - reflexivity.
Qed.

Lemma melting_temperature_computed_witness :
  @melting_temperature sample_model (paired_with 5 domain_ATGC)
  = Traced
      [StackEnergy "ATGC" "GCAT";
       MeltingTemperature (-30000) (-85);
       ConvertKToC (-30000 / -85)]
      (Ok (-30000 / -85 - 0x1.1126666666666p+8)%float).
Proof.
  assert (Hp : Domain.connected_domain (paired_with 5 domain_ATGC) ≠ (-1)%Z)
    by (cbn; lia).
  assert (HN : "N"%char ∉ list_ascii_of_string
                            (Domain.sequence (paired_with 5 domain_ATGC)))
    by (apply (bool_decide_unpack _); vm_compute; exact I).
  assert (Hn : "n"%char ∉ list_ascii_of_string
                            (Domain.sequence (paired_with 5 domain_ATGC)))
    by (apply (bool_decide_unpack _); vm_compute; exact I).
  destruct (@melting_temperature_computed sample_model _ Hp HN Hn)
    as [Hok _].
  apply (Hok "GCAT"%string 0.5%float 1%float (-30000)%float (-85)%float);
    reflexivity.
Defined.

(** ** The [color] property: C7, C9 *)

(** C7. Reading [color] is a three-tier fallback: the stored [_color] when
    it is not [None]; otherwise the colour of the owning strand when
    [strand] is not [None]; otherwise exactly [[0.5, 0.5, 0.5]]. *)
Theorem color_fallback (h : Heap) (self : loc) (d : Domain.t) :
  domains h !! self = Some d →
  (∀ c, Domain._color d = Some c → color h self = Ok c) ∧
  (∀ l s, Domain._color d = None → Domain.strand d = Some l →
          strands h !! l = Some s → color h self = Ok (DnaStrand.color s)) ∧
  (Domain._color d = None → Domain.strand d = None →
   color h self = Ok [0.5; 0.5; 0.5]%float).
Proof.
  intros Hd. unfold color, deref. rewrite Hd. cbn.
  split; [|split].
  - by intros c ->.
  - intros l s -> -> Hs. cbn. by rewrite Hs.
  - by intros -> ->.
Qed.

Lemma color_fallback_witness :
  color (set_color 1%positive (Some red) sample_heap) 1%positive = Ok red ∧
  color sample_heap 1%positive = Ok blue ∧
  color sample_heap 2%positive = Ok [0.5; 0.5; 0.5]%float.
Proof.
  split; [|split].
  - assert (Hd : domains (set_color 1%positive (Some red) sample_heap) !! 1%positive
                 = Some (with_color (Some red) domain_ATGC))
      by reflexivity.
    destruct (color_fallback _ _ _ Hd) as [Hset _].
    apply Hset. reflexivity.
  - assert (Hd : domains sample_heap !! 1%positive = Some domain_ATGC)
      by reflexivity.
    destruct (color_fallback _ _ _ Hd) as (_ & Hstrand & _).
    apply (Hstrand 1%positive {| DnaStrand.color := blue |}); reflexivity.
  - assert (Hd : domains sample_heap !! 2%positive = Some domain_ATNC)
      by reflexivity.
    destruct (color_fallback _ _ _ Hd) as (_ & _ & Hgray).
    apply Hgray; reflexivity.
Defined.

(** C9. Writing [color] changes the [_color] attribute of the domain written
    to and nothing else: its other attributes keep their values, every
    other domain is untouched, and so is every strand, the owning strand's
    colour included. *)
Theorem set_color_frame (h : Heap) (self : loc) (d : Domain.t)
    (newval : option Color) :
  domains h !! self = Some d →
  (∃ d', domains (set_color self newval h) !! self = Some d' ∧
         Domain._color d' = newval ∧
         Domain.id d' = Domain.id d ∧
         Domain.helix d' = Domain.helix d ∧
         Domain.strand d' = Domain.strand d ∧
         Domain.base_list d' = Domain.base_list d ∧
         Domain.sequence d' = Domain.sequence d ∧
         Domain.connected_strand d' = Domain.connected_strand d ∧
         Domain.connected_domain d' = Domain.connected_domain d) ∧
  (∀ other, other ≠ self →
            domains (set_color self newval h) !! other = domains h !! other) ∧
  strands (set_color self newval h) = strands h ∧
  (∀ l, Domain.strand d = Some l →
        DnaStrand.color <$> deref (strands (set_color self newval h)) l
        = DnaStrand.color <$> deref (strands h) l).
Proof.
  intros Hd. split; [|split; [|split]].
  - exists (with_color newval d). split; [|done].
    unfold set_color. cbn. by rewrite lookup_alter_eq, Hd.
  - intros other Hne. unfold set_color. cbn. by rewrite lookup_alter_ne.
  - reflexivity.
  - reflexivity.
Qed.

Lemma set_color_frame_witness :
  strands (set_color 1%positive (Some red) sample_heap) = strands sample_heap ∧
  domains (set_color 1%positive (Some red) sample_heap) !! 2%positive
  = domains sample_heap !! 2%positive ∧
  color (set_color 1%positive (Some red) sample_heap) 2%positive
  = color sample_heap 2%positive.
Proof.
  assert (Hd : domains sample_heap !! 1%positive = Some domain_ATGC)
    by reflexivity.
  destruct (set_color_frame sample_heap 1%positive domain_ATGC (Some red) Hd)
    as (_ & Hother & Hstrands & _).
  split; [exact Hstrands|].
  split; [apply Hother; discriminate | reflexivity].
Defined.

(** ** End points: C4, C10 *)

(** C4, as the code has it. For a domain with a non-empty [base_list],
    [get_end_points] returns the pair of the [coordinates] attributes of
    the first and of the last base, in that order. *)
Theorem get_end_points_first_last (self : Domain.t) :
  Domain.base_list self ≠ [] →
  ∃ base1 base2,
    head (Domain.base_list self) = Some base1 ∧
    last (Domain.base_list self) = Some base2 ∧
    get_end_points self
    = Ok (DnaBase.coordinates base1, DnaBase.coordinates base2).
Proof.
  intros Hne. unfold get_end_points.
  rewrite py_index_first, py_index_last.
  destruct (head (Domain.base_list self)) as [base1|] eqn:H1.
  - destruct (last (Domain.base_list self)) as [base2|] eqn:H2.
    + by exists base1, base2.
    + by apply last_None in H2.
  - by apply head_None in H1.
Qed.

Lemma get_end_points_first_last_witness :
  Domain.base_list domain_ATGC ≠ [] ∧
  ∃ base1 base2,
    head (Domain.base_list domain_ATGC) = Some base1 ∧
    last (Domain.base_list domain_ATGC) = Some base2 ∧
    get_end_points domain_ATGC
    = Ok (DnaBase.coordinates base1, DnaBase.coordinates base2).
Proof.
  assert (Hne : Domain.base_list domain_ATGC ≠ []) by discriminate.
  split; [exact Hne | exact (get_end_points_first_last domain_ATGC Hne)].
Defined.

(** C4, as stated, fails: [domain_ATGC] has four bases, its helix table
    holds an entry for the position of each, and the points returned are
    not the table's entries for the first and the last base. *)
Lemma get_end_points_not_from_helix_table :
  Domain.base_list domain_ATGC ≠ [] ∧
  get_end_points domain_ATGC = Ok ((1, 0, 0), (4, 0, 0))%float ∧
  helix_coordinate (Domain.helix domain_ATGC) (base_at "A" 0 1)
  = Some (0, 0, 10)%float ∧
  ¬ end_points_from_helix_table domain_ATGC ((1, 0, 0), (4, 0, 0))%float.
Proof.
  split; [discriminate|]. split; [reflexivity|]. split; [reflexivity|].
  intros (base1 & base2 & H1 & _ & Hp1 & _).
  injection H1 as <-.
  apply (f_equal (λ o : option Point,
                    match o with
                    | Some (x, _, _) => PrimFloat.eqb x 1
                    | None => false
                    end)) in Hp1.
  vm_compute in Hp1. discriminate Hp1.
Qed.

(** C10. The result of [get_end_points] depends only on the [coordinates]
    of [base_list[0]] and of [base_list[-1]]: two domains that agree on
    these two get equal results, whatever their helix tables hold. *)
Theorem get_end_points_ignores_helix (d1 d2 : Domain.t) :
  DnaBase.coordinates <$> py_index (Domain.base_list d1) 0
  = DnaBase.coordinates <$> py_index (Domain.base_list d2) 0 →
  DnaBase.coordinates <$> py_index (Domain.base_list d1) (-1)
  = DnaBase.coordinates <$> py_index (Domain.base_list d2) (-1) →
  get_end_points d1 = get_end_points d2.
Proof.
  unfold get_end_points. intros Hfirst Hlast.
  destruct (py_index (Domain.base_list d1) 0) as [a1|e1],
           (py_index (Domain.base_list d2) 0) as [a2|e2];
    cbn in Hfirst |- *; try discriminate Hfirst.
  - destruct (py_index (Domain.base_list d1) (-1)) as [b1|e1],
             (py_index (Domain.base_list d2) (-1)) as [b2|e2];
      cbn in Hlast |- *; try discriminate Hlast.
    + injection Hfirst as ->. injection Hlast as ->. reflexivity.
    + by injection Hlast as ->.
  - by injection Hfirst as ->.
Qed.

Lemma get_end_points_ignores_helix_witness :
  Domain.helix (init 7 helix_empty None bases_ATGC)
  ≠ Domain.helix domain_ATGC ∧
  get_end_points (init 7 helix_empty None bases_ATGC)
  = get_end_points domain_ATGC.
Proof.
  split.
  - intros Heq.
    apply (f_equal (λ hx, DnaStructureHelix.helix_axis_coords hx !! 0%Z))
      in Heq.
    vm_compute in Heq. discriminate Heq.
  - apply get_end_points_ignores_helix; reflexivity.
Defined.

(** * Further properties of the module *)

(** ** Strings as character lists *)

Lemma chars_append (s1 s2 : string) :
  list_ascii_of_string (String.append s1 s2)
  = list_ascii_of_string s1 ++ list_ascii_of_string s2.
Proof.
  induction s1 as [|c s1 IH]; [reflexivity|].
  change (c :: list_ascii_of_string (String.append s1 s2)
          = c :: (list_ascii_of_string s1 ++ list_ascii_of_string s2)).
  by rewrite IH.
Qed.

Lemma string_of_chars_app (l1 l2 : list ascii) :
  string_of_list_ascii (l1 ++ l2)
  = String.append (string_of_list_ascii l1) (string_of_list_ascii l2).
Proof.
  induction l1 as [|c l1 IH]; [reflexivity|].
  change (String c (string_of_list_ascii (l1 ++ l2))
          = String c (String.append (string_of_list_ascii l1)
                                    (string_of_list_ascii l2))).
  by rewrite IH.
Qed.

Lemma chars_inj (s1 s2 : string) :
  list_ascii_of_string s1 = list_ascii_of_string s2 → s1 = s2.
Proof.
  intros Heq.
  rewrite <- (string_of_list_ascii_of_string s1),
          <- (string_of_list_ascii_of_string s2).
  by rewrite Heq.
Qed.

Lemma chars_concat (l : list string) :
  list_ascii_of_string (String.concat "" l)
  = mjoin (list_ascii_of_string <$> l).
Proof.
  induction l as [|s l IH]; [reflexivity|].
  destruct l as [|s' l].
  - cbn. by rewrite app_nil_r.
  - change (String.concat "" (s :: s' :: l))
      with (String.append s (String.append "" (String.concat "" (s' :: l)))).
    rewrite chars_append. change (String.append "" ?x) with x.
    by rewrite IH.
Qed.

(** ** The [comp] dict outside the alphabet *)

Lemma comp_getitem_outside (c : ascii) :
  nucleotide c = false → comp_getitem c = Raise (KeyError c).
Proof.
  destruct c as [[] [] [] [] [] [] [] []]; vm_compute; intros H;
    first [discriminate H | reflexivity].
Qed.

Lemma complement_N (c : ascii) :
  complement c = "N"%char ∨ complement c = "n"%char →
  c = "N"%char ∨ c = "n"%char.
Proof.
  destruct c as [[] [] [] [] [] [] [] []]; cbn; intros [H|H];
    first [discriminate H | by left | by right].
Qed.

Lemma complement_inj (c1 c2 : ascii) : complement c1 = complement c2 → c1 = c2.
Proof.
  intros Heq.
  by rewrite <- (complement_involutive c1), Heq, complement_involutive.
Qed.

Lemma mapM_comp_getitem_Ok (l r : list ascii) :
  mapM comp_getitem l = Ok r → Forall (λ c, nucleotide c = true) l.
Proof.
  revert r. induction l as [|c l IH]; intros r Hr; [constructor|].
  cbn in Hr. destruct (comp_getitem c) as [c'|e] eqn:Hc; [|discriminate Hr].
  cbn in Hr. destruct (mapM comp_getitem l) as [r'|e] eqn:Hl;
    [|discriminate Hr].
  constructor; [by eapply comp_getitem_defined | by eapply IH].
Qed.

(** The lookup stops at the first character, in the order visited, that
    has no entry. *)
Lemma mapM_comp_getitem_Raise (good rest : list ascii) (c : ascii) :
  Forall (λ c, nucleotide c = true) good →
  nucleotide c = false →
  mapM comp_getitem (good ++ c :: rest) = Raise (KeyError c).
Proof.
  intros Hgood Hc. rewrite mapM_result_app, (mapM_comp_getitem good Hgood).
  cbn. by rewrite (comp_getitem_outside c Hc).
Qed.

Lemma Forall_nucleotide_split (l : list ascii) :
  Forall (λ c, nucleotide c = true) l ∨
  ∃ good c rest, l = good ++ c :: rest ∧
                 Forall (λ c, nucleotide c = true) good ∧
                 nucleotide c = false.
Proof.
  induction l as [|a l [IH|(good & c & rest & -> & Hgood & Hc)]].
  - left. constructor.
  - destruct (nucleotide a) eqn:Ha.
    + left. by constructor.
    + right. exists [], a, l. by repeat split.
  - destruct (nucleotide a) eqn:Ha.
    + right. exists (a :: good), c, rest. repeat split; [|done]. by constructor.
    + right. exists [], a, (good ++ c :: rest). by repeat split.
Qed.

Lemma fmap_complement_involutive (l : list ascii) :
  complement <$> (complement <$> l) = l.
Proof.
  rewrite <- list_fmap_compose.
  rewrite (list_fmap_ext (complement ∘ complement) id)
    by (intros ? c _; apply complement_involutive).
  apply list_fmap_id.
Qed.

Lemma rev_complement_Ok_inv (s r : string) :
  rev_complement s = Ok r →
  over nucleotide s ∧
  r = string_of_list_ascii (complement <$> reverse (list_ascii_of_string s)).
Proof.
  intros Hr.
  assert (Hs : over nucleotide s).
  { rewrite rev_complement_unfold in Hr. unfold revcomp_chars in Hr.
    destruct (mapM comp_getitem (reverse (list_ascii_of_string s)))
      as [r'|e] eqn:Hm; [|discriminate Hr].
    apply mapM_comp_getitem_Ok in Hm. apply Forall_reverse in Hm.
    by rewrite reverse_involutive in Hm. }
  split; [exact Hs|].
  rewrite (rev_complement_over s Hs) in Hr. by injection Hr as <-.
Qed.

(** ** [rev_complement]: failure, success, composition *)

(** X1. A string with a character outside the [comp] table makes
    [rev_complement] raise [KeyError], and the key reported is the last such
    character of the string: the loop walks the string from its end. *)
Theorem rev_complement_KeyError (pre suf : list ascii) (c : ascii) :
  nucleotide c = false →
  Forall (λ c, nucleotide c = true) suf →
  rev_complement (string_of_list_ascii (pre ++ c :: suf))
  = Raise (KeyError c).
Proof.
  intros Hc Hsuf. rewrite rev_complement_unfold, chars_of_chars.
  unfold revcomp_chars. rewrite reverse_app, reverse_cons, <- app_assoc.
  change ([c] ++ reverse pre) with (c :: reverse pre).
  rewrite mapM_comp_getitem_Raise; [reflexivity | by apply Forall_reverse | done].
Qed.

Lemma rev_complement_KeyError_witness :
  rev_complement "AXTYGC" = Raise (KeyError "Y").
Proof.
  apply (rev_complement_KeyError ["A"; "X"; "T"]%char ["G"; "C"]%char "Y"%char).
  - reflexivity.
  - repeat constructor.
Defined.

(** X2. [rev_complement] returns a string exactly when every character of
    its argument is a key of [comp], that is, lies in [{A,T,G,C,N}] in
    either case; the string returned is then the reversed argument with each
    character replaced by its complement. *)
Theorem rev_complement_Ok_iff (s r : string) :
  rev_complement s = Ok r ↔
  over nucleotide s ∧
  r = string_of_list_ascii (complement <$> reverse (list_ascii_of_string s)).
Proof.
  split.
  - apply rev_complement_Ok_inv.
  - intros [Hs ->]. by apply rev_complement_over.
Qed.

Lemma rev_complement_Ok_iff_witness :
  over nucleotide "ATGC" ∧ ¬ over nucleotide "ATXC" ∧
  (∀ r, rev_complement "ATXC" ≠ Ok r).
Proof.
  assert (Hbad : ¬ over nucleotide "ATXC").
  { unfold over. cbn. intros H.
    apply Forall_cons_1 in H as [_ H]. apply Forall_cons_1 in H as [_ H].
    apply Forall_cons_1 in H as [H _]. discriminate H. }
  split; [unfold over; cbn; repeat constructor|].
  split; [exact Hbad|].
  intros r Hr. apply Hbad.
  exact (proj1 (proj1 (rev_complement_Ok_iff "ATXC" r) Hr)).
Defined.

(** X3. [rev_complement] turns concatenation around:
    [rev_complement(s1 + s2)] is [rev_complement(s2) + rev_complement(s1)],
    and it raises what the first of these two calls to fail raises. *)
Theorem rev_complement_append (s1 s2 : string) :
  rev_complement (String.append s1 s2)
  = (r2 ← rev_complement s2;
     r1 ← rev_complement s1;
     mret (String.append r2 r1)).
Proof.
  rewrite !rev_complement_unfold. unfold revcomp_chars.
  rewrite chars_append, reverse_app, mapM_result_app.
  destruct (mapM comp_getitem (reverse (list_ascii_of_string s2)))
    as [r2|e]; [|reflexivity].
  cbn. destruct (mapM comp_getitem (reverse (list_ascii_of_string s1)))
    as [r1|e]; [|reflexivity].
  cbn. by rewrite string_of_chars_app.
Qed.

(** X4. [rev_complement] is injective where it returns: two strings with
    the same reverse complement are the same string. *)
Theorem rev_complement_inj (s1 s2 r : string) :
  rev_complement s1 = Ok r → rev_complement s2 = Ok r → s1 = s2.
Proof.
  intros [_ H1]%rev_complement_Ok_inv [_ H2]%rev_complement_Ok_inv.
  subst r. apply (f_equal list_ascii_of_string) in H2.
  rewrite !chars_of_chars in H2.
  apply (f_equal (fmap complement)) in H2.
  rewrite !fmap_complement_involutive in H2.
  apply (f_equal reverse) in H2. rewrite !reverse_involutive in H2.
  by apply chars_inj.
Qed.

Lemma rev_complement_inj_witness :
  rev_complement "gcat" = Ok "atgc"%string ∧ "gcat"%string = "gcat"%string.
Proof.
  assert (H : rev_complement "gcat" = Ok "atgc"%string) by reflexivity.
  split; [exact H | exact (rev_complement_inj "gcat" "gcat" "atgc" H H)].
Defined.

(** ** [__init__]: the stored sequence *)

Lemma one_letter (s : string) :
  String.length s = 1 → ∃ c, s = String c EmptyString.
Proof.
  destruct s as [|c [|c' s]]; cbn; intros H; try discriminate H.
  by exists c.
Qed.

Lemma init_chars (id : Z) (helix : DnaStructureHelix.t) (strand : option loc)
    (bases : list DnaBase.t) :
  list_ascii_of_string (Domain.sequence (init id helix strand bases))
  = mjoin (list_ascii_of_string <$> (DnaBase.seq <$> bases)).
Proof. apply chars_concat. Qed.

Lemma one_letter_chars (bases : list DnaBase.t) :
  Forall (λ b, String.length (DnaBase.seq b) = 1) bases →
  length (mjoin (list_ascii_of_string <$> (DnaBase.seq <$> bases)))
  = length bases ∧
  ∀ (i : nat) b, bases !! i = Some b →
    ∃ c, DnaBase.seq b = String c EmptyString ∧
         mjoin (list_ascii_of_string <$> (DnaBase.seq <$> bases)) !! i
         = Some c.
Proof.
  induction 1 as [|b bases Hb _ [Hlen Hget]].
  - split; [reflexivity|]. intros i b Hi. by rewrite lookup_nil in Hi.
  - destruct (one_letter _ Hb) as [c Hc].
    change (mjoin (list_ascii_of_string <$> (DnaBase.seq <$> b :: bases)))
      with (list_ascii_of_string (DnaBase.seq b)
            ++ mjoin (list_ascii_of_string <$> (DnaBase.seq <$> bases))).
    rewrite Hc.
    change (list_ascii_of_string (String c EmptyString)) with [c].
    split.
    + cbn [app length]. by rewrite Hlen.
    + intros [|i] b' Hi.
      * injection Hi as <-. by exists c.
      * destruct (Hget i b' Hi) as (c' & Hc' & Hlook). by exists c'.
Qed.

(** X5. When every base carries a one-letter symbol, the sequence stored
    by [__init__] has one character per base, in the order of the list:
    [len(sequence) == len(base_list)] and [sequence[i] == base_list[i].seq]. *)
Theorem init_sequence_one_letter (id : Z) (helix : DnaStructureHelix.t)
    (strand : option loc) (bases : list DnaBase.t) :
  Forall (λ b, String.length (DnaBase.seq b) = 1) bases →
  py_len (Domain.sequence (init id helix strand bases))
  = Z.of_nat (length bases) ∧
  ∀ (i : nat) b, bases !! i = Some b →
    ∃ c, DnaBase.seq b = String c EmptyString ∧
         str_getitem (Domain.sequence (init id helix strand bases))
                     (Z.of_nat i) = Ok c.
Proof.
  intros Hone. destruct (one_letter_chars bases Hone) as [Hlen Hget].
  rewrite py_len_chars. unfold str_getitem.
  rewrite init_chars. split; [by rewrite Hlen|].
  intros i b Hi. destruct (Hget i b Hi) as (c & Hc & Hlook).
  exists c. split; [exact Hc | by apply py_index_nonneg].
Qed.

Lemma init_sequence_one_letter_witness :
  py_len (Domain.sequence domain_ATNC) = 4%Z ∧
  str_getitem (Domain.sequence domain_ATNC) 2 = Ok "N"%char.
Proof.
  assert (Hone : Forall (λ b, String.length (DnaBase.seq b) = 1) bases_ATNC)
    by (repeat constructor).
  destruct (init_sequence_one_letter 1 helix_z None bases_ATNC Hone)
    as [Hlen Hget].
  split; [exact Hlen|].
  destruct (Hget 2%nat (base_at "N" 2 3) eq_refl) as (c & Hc & Hlook).
  injection Hc as <-. exact Hlook.
Defined.

(** ** [get_end_points]: the empty and the one-base domain *)



(** X7. On a domain of one base both end points are that base's
    [coordinates]: [base_list[0]] and [base_list[-1]] are the same
    object. *)
Theorem get_end_points_single (self : Domain.t) (b : DnaBase.t) :
  Domain.base_list self = [b] →
  get_end_points self = Ok (DnaBase.coordinates b, DnaBase.coordinates b).
Proof.
  intros Hl. unfold get_end_points. by rewrite Hl.
Qed.

Lemma get_end_points_single_witness :
  get_end_points (init 3 helix_empty None [base_at "G" 5 2])
  = Ok ((2, 0, 0), (2, 0, 0))%float.
Proof.
  apply (get_end_points_single (init 3 helix_empty None [base_at "G" 5 2])
                               (base_at "G" 5 2)).
  reflexivity.
Defined.

(** ** [melting_temperature]: what reaches the energy model *)

Section melting_temperature_calls.

Context `{M : energymodel.t}.

Lemma melting_temperature_N_guard (self : Domain.t) :
  Domain.connected_domain self ≠ (-1)%Z →
  "N"%char ∈ list_ascii_of_string (Domain.sequence self) ∨
  "n"%char ∈ list_ascii_of_string (Domain.sequence self) →
  melting_temperature self = Traced [] (Ok (-501.0)%float).
Proof.
  intros Hpaired Hamb. unfold melting_temperature.
  destruct (decide _) as [Heq|_]; [done|].
  change "N"%string with (String "N" EmptyString).
  change "n"%string with (String "n" EmptyString).
  destruct Hamb as [HN|Hn].
  - apply str_contains_char in HN. by rewrite HN.
  - apply str_contains_char in Hn. rewrite Hn. by rewrite orb_true_r.
Qed.

(** The three cases of the method, by what the guards and
    [rev_complement] decide. *)
Lemma melting_temperature_cases (self : Domain.t) :
  melting_temperature self = Traced [] (Ok (-500.0)%float) ∨
  melting_temperature self = Traced [] (Ok (-501.0)%float) ∨
  (Domain.connected_domain self ≠ (-1)%Z ∧
   ("N"%char ∉ list_ascii_of_string (Domain.sequence self)) ∧
   ("n"%char ∉ list_ascii_of_string (Domain.sequence self)) ∧
   ((∃ e, rev_complement (Domain.sequence self) = Raise e ∧
          melting_temperature self = Traced [] (Raise e)) ∨
    (∃ rc t1 t2 dH dS,
       rev_complement (Domain.sequence self) = Ok rc ∧
       energymodel.stack_energy (Domain.sequence self) rc
       = (t1, t2, dH, dS) ∧
       melting_temperature self
       = Traced
           [StackEnergy (Domain.sequence self) rc;
            MeltingTemperature dH dS;
            ConvertKToC (energymodel.melting_temperature dH dS)]
           (Ok (energymodel.convert_temperature_K_to_C
                  (energymodel.melting_temperature dH dS)))))).
Proof.
  destruct (decide (Domain.connected_domain self = (-1)%Z)) as [Hu|Hp].
  { left. unfold melting_temperature. by destruct (decide _). }
  destruct (decide ("N"%char ∈ list_ascii_of_string (Domain.sequence self)))
    as [HN|HN].
  { right. left. apply melting_temperature_N_guard; auto. }
  destruct (decide ("n"%char ∈ list_ascii_of_string (Domain.sequence self)))
    as [Hn|Hn].
  { right. left. apply melting_temperature_N_guard; auto. }
  right. right. split; [done|]. split; [done|]. split; [done|].
  rewrite (melting_temperature_paired_clean self Hp HN Hn).
  destruct (rev_complement (Domain.sequence self)) as [rc|e] eqn:Hrc.
  - right.
    destruct (energymodel.stack_energy (Domain.sequence self) rc)
      as [[[t1 t2] dH] dS] eqn:Hse.
    exists rc, t1, t2, dH, dS. split; [done|]. split; [done|].
    unfold mbind, traced_bind, quiet, call_stack_energy, invoke. cbn.
    by rewrite Hse.
  - left. by exists e.
Qed.

End melting_temperature_calls.

Lemma revcomp_no_N (l : list ascii) :
  "N"%char ∉ l → "n"%char ∉ l →
  ("N"%char ∉ (complement <$> reverse l)) ∧
  "n"%char ∉ (complement <$> reverse l).
Proof.
  intros HN Hn.
  assert (Hboth : ∀ x, x = "N"%char ∨ x = "n"%char →
                       x ∉ (complement <$> reverse l)).
  { intros x Hx (c & Hc & Hin)%list_elem_of_fmap.
    rewrite elem_of_reverse in Hin. subst x.
    destruct (complement_N c Hx) as [Hc|Hc]; subst c; contradiction. }
  split; apply Hboth; auto.
Qed.

(** X8. A freshly constructed domain is unpaired: whatever bases it is
    built from, [melting_temperature] returns [-500.0] and calls nothing,
    until [connected_domain] is assigned. *)
Theorem melting_temperature_fresh `{M : energymodel.t} (id : Z)
    (helix : DnaStructureHelix.t) (strand : option loc)
    (bases : list DnaBase.t) :
  melting_temperature (init id helix strand bases)
  = Traced [] (Ok (-500.0)%float).
Proof. reflexivity. Qed.

(** X9. For a paired domain whose sequence has no [N] and no [n] but has a
    character outside [{A,T,G,C}] (either case), [melting_temperature]
    raises [KeyError] for such a character and the energy model is not
    called. *)
Theorem melting_temperature_KeyError `{M : energymodel.t} (self : Domain.t) :
  Domain.connected_domain self ≠ (-1)%Z →
  "N"%char ∉ list_ascii_of_string (Domain.sequence self) →
  "n"%char ∉ list_ascii_of_string (Domain.sequence self) →
  ¬ over nucleotide (Domain.sequence self) →
  ∃ c, c ∈ list_ascii_of_string (Domain.sequence self) ∧
       nucleotide c = false ∧
       melting_temperature self = Traced [] (Raise (KeyError c)).
Proof.
  intros Hp HN Hn Hbad.
  destruct (Forall_nucleotide_split
              (reverse (list_ascii_of_string (Domain.sequence self))))
    as [Hall|(good & c & rest & Hsplit & Hgood & Hc)].
  { exfalso. apply Hbad. unfold over. apply Forall_reverse in Hall.
    by rewrite reverse_involutive in Hall. }
  exists c. split; [|split; [exact Hc|]].
  - apply elem_of_reverse. rewrite Hsplit. set_solver.
  - rewrite (melting_temperature_paired_clean self Hp HN Hn).
    rewrite rev_complement_unfold. unfold revcomp_chars.
    by rewrite Hsplit, (mapM_comp_getitem_Raise good rest c Hgood Hc).
Qed.

Lemma melting_temperature_KeyError_witness :
  ∃ c, c ∈ list_ascii_of_string "AUGC" ∧
       nucleotide c = false ∧
       @melting_temperature sample_model
         (paired_with 2 (init 4 helix_empty None
                           [base_at "A" 0 0; base_at "U" 1 0;
                            base_at "G" 2 0; base_at "C" 3 0]))
       = Traced [] (Raise (KeyError c)).
Proof.
  apply (@melting_temperature_KeyError sample_model
           (paired_with 2 (init 4 helix_empty None
                             [base_at "A" 0 0; base_at "U" 1 0;
                              base_at "G" 2 0; base_at "C" 3 0]))).
  - cbn. lia.
  - apply (bool_decide_unpack _). vm_compute. exact I.
  - apply (bool_decide_unpack _). vm_compute. exact I.
  - unfold over. cbn. intros H.
    apply Forall_cons_1 in H as [_ H]. apply Forall_cons_1 in H as [H _].
    discriminate H.
Defined.

(** X10. [melting_temperature] calls the energy model either not at all or
    exactly three times, [stack_energy] then [melting_temperature] then the
    conversion, and then it returns the converted value. Neither argument
    handed to [stack_energy] ever contains [N] or [n]. *)
Theorem melting_temperature_calls `{M : energymodel.t} (self : Domain.t) :
  calls (melting_temperature self) = [] ∨
  ∃ rc dH dS,
    calls (melting_temperature self)
    = [StackEnergy (Domain.sequence self) rc;
       MeltingTemperature dH dS;
       ConvertKToC (energymodel.melting_temperature dH dS)] ∧
    outcome (melting_temperature self)
    = Ok (energymodel.convert_temperature_K_to_C
            (energymodel.melting_temperature dH dS)) ∧
    rev_complement (Domain.sequence self) = Ok rc ∧
    ("N"%char ∉ list_ascii_of_string (Domain.sequence self)) ∧
    ("n"%char ∉ list_ascii_of_string (Domain.sequence self)) ∧
    ("N"%char ∉ list_ascii_of_string rc) ∧
    "n"%char ∉ list_ascii_of_string rc.
Proof.
  destruct (melting_temperature_cases self)
    as [->|[->|(Hp & HN & Hn & [(e & _ & ->)|Hcall])]];
    [by left | by left | by left |].
  destruct Hcall as (rc & t1 & t2 & dH & dS & Hrc & Hse & ->).
  right. exists rc, dH, dS. repeat (split; [done|]).
  destruct (rev_complement_Ok_inv _ _ Hrc) as [_ ->].
  rewrite chars_of_chars. by apply revcomp_no_N.
Qed.

(** X11. The ambiguity of one base is enough: a domain built from bases one
    of which has [N] or [n] in its symbol returns [-501.0], without any
    call, once it is paired. *)
Theorem melting_temperature_ambiguous_base `{M : energymodel.t} (id k : Z)
    (helix : DnaStructureHelix.t) (strand : option loc)
    (bases : list DnaBase.t) (b : DnaBase.t) :
  k ≠ (-1)%Z →
  b ∈ bases →
  "N"%char ∈ list_ascii_of_string (DnaBase.seq b) ∨
  "n"%char ∈ list_ascii_of_string (DnaBase.seq b) →
  melting_temperature (paired_with k (init id helix strand bases))
  = Traced [] (Ok (-501.0)%float).
Proof.
  intros Hk Hb Hamb. apply melting_temperature_N_guard; [exact Hk|].
  change (Domain.sequence (paired_with k (init id helix strand bases)))
    with (Domain.sequence (init id helix strand bases)).
  rewrite init_chars.
  assert (Hsub : ∀ c, c ∈ list_ascii_of_string (DnaBase.seq b) →
                      c ∈ mjoin (list_ascii_of_string <$>
                                   (DnaBase.seq <$> bases))).
  { intros c Hc. apply list_elem_of_join.
    exists (list_ascii_of_string (DnaBase.seq b)). split; [exact Hc|].
    apply list_elem_of_fmap_2, list_elem_of_fmap_2, Hb. }
  destruct Hamb as [H|H]; [left | right]; by apply Hsub.
Qed.

Lemma melting_temperature_ambiguous_base_witness :
  @melting_temperature sample_model
    (paired_with 7 (init 1 helix_z None bases_ATNC))
  = Traced [] (Ok (-501.0)%float).
Proof.
  apply (@melting_temperature_ambiguous_base sample_model 1 7 helix_z None
           bases_ATNC (base_at "N" 2 3)).
  - lia.
  - unfold bases_ATNC. do 2 apply list_elem_of_further.
    apply list_elem_of_here.
  - left. cbn. apply list_elem_of_here.
Defined.

(** X12. An empty sequence is not guarded: a paired domain with an empty
    sequence goes on to call [stack_energy] with two empty strings and
    returns what the energy model makes of them. *)
Theorem melting_temperature_empty `{M : energymodel.t} (self : Domain.t)
    (t1 t2 dH dS : float) :
  Domain.connected_domain self ≠ (-1)%Z →
  Domain.sequence self = EmptyString →
  energymodel.stack_energy "" "" = (t1, t2, dH, dS) →
  melting_temperature self
  = Traced
      [StackEnergy "" ""; MeltingTemperature dH dS;
       ConvertKToC (energymodel.melting_temperature dH dS)]
      (Ok (energymodel.convert_temperature_K_to_C
             (energymodel.melting_temperature dH dS))).
Proof.
  intros Hp Hs Hse.
  rewrite (melting_temperature_paired_clean self Hp)
    by (rewrite Hs; apply not_elem_of_nil).
  rewrite Hs.
  change (rev_complement "") with (@Ok string "").
  unfold mbind, traced_bind, quiet, call_stack_energy, invoke. cbn.
  by rewrite Hse.
Qed.

Lemma melting_temperature_empty_witness :
  @melting_temperature sample_model
    (paired_with 3 (init 8 helix_empty None []))
  = Traced
      [StackEnergy "" ""; MeltingTemperature (-30000) (-85);
       ConvertKToC (-30000 / -85)]
      (Ok (-30000 / -85 - 0x1.1126666666666p+8)%float).
Proof.
  apply (@melting_temperature_empty sample_model
           (paired_with 3 (init 8 helix_empty None []))
           0.5%float 1%float (-30000)%float (-85)%float).
  - cbn. lia.
  - reflexivity.
  - reflexivity.
Defined.

(** ** The [color] property: writes followed by reads *)

Lemma set_color_lookup (h : Heap) (self other : loc) (newval : option Color) :
  domains (set_color self newval h) !! other
  = if decide (self = other) then with_color newval <$> domains h !! self
    else domains h !! other.
Proof. unfold set_color. cbn. apply lookup_alter. Qed.

Lemma Heap_eq (h1 h2 : Heap) :
  (∀ l, domains h1 !! l = domains h2 !! l) → strands h1 = strands h2 →
  h1 = h2.
Proof.
  destruct h1 as [d1 s1], h2 as [d2 s2]. cbn. intros Hd ->.
  f_equal. by apply map_eq.
Qed.

(** X13. A colour written to a domain is the colour read back from it,
    whatever the strand's colour is. *)
Theorem color_set_get (h : Heap) (self : loc) (d : Domain.t) (c : Color) :
  domains h !! self = Some d →
  color (set_color self (Some c) h) self = Ok c.
Proof.
  intros Hd. unfold color, deref.
  rewrite set_color_lookup, decide_True, Hd by done. reflexivity.
Qed.

Lemma color_set_get_witness :
  color sample_heap 1%positive = Ok blue ∧
  color (set_color 1%positive (Some red) sample_heap) 1%positive = Ok red.
Proof.
  split; [reflexivity|].
  apply (color_set_get sample_heap 1%positive domain_ATGC red). reflexivity.
Defined.

(** X14. Writing the colour of one domain does not change the colour read
    from any other domain, not even from one on the same strand. *)
Theorem color_set_other (h : Heap) (self other : loc)
    (newval : option Color) :
  other ≠ self →
  color (set_color self newval h) other = color h other.
Proof.
  intros Hne. unfold color, deref.
  rewrite set_color_lookup, decide_False by done. reflexivity.
Qed.

Lemma color_set_other_witness :
  color (set_color 1%positive (Some red) sample_heap) 2%positive
  = color sample_heap 2%positive.
Proof.
  apply (color_set_other sample_heap 1%positive 2%positive (Some red)).
  discriminate.
Defined.

(** X15. Of two writes to the colour of the same domain the second wins:
    the state is as if the first had not happened. *)
Theorem set_color_twice (h : Heap) (self : loc) (v1 v2 : option Color) :
  set_color self v2 (set_color self v1 h) = set_color self v2 h.
Proof.
  apply Heap_eq; [|reflexivity]. intros l.
  rewrite !set_color_lookup.
  repeat case_decide; try done.
  by destruct (domains h !! self).
Qed.

(** X16. Writes to the colours of two different domains commute. *)
Theorem set_color_commute (h : Heap) (a b : loc) (v w : option Color) :
  a ≠ b →
  set_color a v (set_color b w h) = set_color b w (set_color a v h).
Proof.
  intros Hab. apply Heap_eq; [|reflexivity]. intros l.
  rewrite !set_color_lookup.
  repeat case_decide; subst; done.
Qed.

Lemma set_color_commute_witness :
  set_color 1%positive (Some red) (set_color 2%positive (Some blue) sample_heap)
  = set_color 2%positive (Some blue) (set_color 1%positive (Some red) sample_heap).
Proof.
  apply (set_color_commute sample_heap 1%positive 2%positive). discriminate.
Defined.

(** X17. Writing [None] undoes an earlier write: the domain falls back to
    its strand's colour, or to [[0.5, 0.5, 0.5]] when it has no strand,
    whatever colour it held before. *)
Theorem color_reset (h : Heap) (self : loc) (d : Domain.t) :
  domains h !! self = Some d →
  (∀ l s, Domain.strand d = Some l → strands h !! l = Some s →
          color (set_color self None h) self = Ok (DnaStrand.color s)) ∧
  (Domain.strand d = None →
   color (set_color self None h) self = Ok [0.5; 0.5; 0.5]%float).
Proof.
  intros Hd. unfold color, deref.
  rewrite set_color_lookup, decide_True, Hd by done. cbn.
  split.
  - intros l s -> Hs. cbn. by rewrite Hs.
  - by intros ->.
Qed.

Lemma color_reset_witness :
  color (set_color 1%positive (Some red) sample_heap) 1%positive = Ok red ∧
  color (set_color 1%positive None
           (set_color 1%positive (Some red) sample_heap)) 1%positive
  = Ok blue.
Proof.
  split; [reflexivity|].
  assert (Hd : domains (set_color 1%positive (Some red) sample_heap)
               !! 1%positive
               = Some (with_color (Some red) domain_ATGC)) by reflexivity.
  destruct (color_reset _ _ _ Hd) as [Hstrand _].
  apply (Hstrand 1%positive {| DnaStrand.color := blue |}); reflexivity.
Defined.

(** X18. A freshly constructed domain has no colour of its own: reading
    [color] gives the colour of the strand passed to [__init__], or
    [[0.5, 0.5, 0.5]] when that strand is [None]. *)
Theorem color_fresh (h : Heap) (self : loc) (id : Z)
    (helix : DnaStructureHelix.t) (strand : option loc)
    (bases : list DnaBase.t) :
  domains h !! self = Some (init id helix strand bases) →
  (∀ l s, strand = Some l → strands h !! l = Some s →
          color h self = Ok (DnaStrand.color s)) ∧
  (strand = None → color h self = Ok [0.5; 0.5; 0.5]%float).
Proof.
  intros Hd. unfold color, deref. rewrite Hd. cbn.
  split.
  - intros l s -> Hs. cbn. by rewrite Hs.
  - by intros ->.
Qed.

Lemma color_fresh_witness :
  color sample_heap 1%positive = Ok blue ∧
  color sample_heap 2%positive = Ok [0.5; 0.5; 0.5]%float.
Proof.
  split.
  - assert (Hd : domains sample_heap !! 1%positive
                 = Some (init 0 helix_z (Some 1%positive) bases_ATGC))
      by reflexivity.
    destruct (color_fresh _ _ _ _ _ _ Hd) as [Hstrand _].
    apply (Hstrand 1%positive {| DnaStrand.color := blue |}); reflexivity.
  - assert (Hd : domains sample_heap !! 2%positive
                 = Some (init 1 helix_z None bases_ATNC)) by reflexivity.
    destruct (color_fresh _ _ _ _ _ _ Hd) as [_ Hgray].
    by apply Hgray.
Defined.

(** X19. Writing [color] leaves what the other two methods return
    unchanged: on the domain written to, [get_end_points] and
    [melting_temperature] give the same results, with the same calls, as
    before the write. *)
Theorem set_color_keeps_methods `{M : energymodel.t} (h : Heap) (self : loc)
    (d : Domain.t) (newval : option Color) :
  domains h !! self = Some d →
  ∃ d', domains (set_color self newval h) !! self = Some d' ∧
        get_end_points d' = get_end_points d ∧
        melting_temperature d' = melting_temperature d.
Proof.
  intros Hd. exists (with_color newval d).
  rewrite set_color_lookup, decide_True, Hd by done.
  by repeat split.
Qed.

Lemma set_color_keeps_methods_witness :
  ∃ d', domains (set_color 1%positive (Some red) sample_heap) !! 1%positive
        = Some d' ∧
        get_end_points d' = get_end_points domain_ATGC ∧
        @melting_temperature sample_model d'
        = @melting_temperature sample_model domain_ATGC.
Proof.
  apply (@set_color_keeps_methods sample_model sample_heap 1%positive
           domain_ATGC (Some red)).
  reflexivity.
Defined.
